(** * Address endpoints of the Kaspa REST server

    A shallow embedding of [endpoints/get_address_transactions.py] (the
    offset pager, the time-cursor pager and the batch activity check)
    together with the catch-all exception handler of [server.py], and the
    properties of the pagination and activity-check algorithms.

    The store, the wall clock, the response object and the log of the
    calls that leave the handler are threaded through a state and
    exception monad. *)

From Stdlib Require Import ZArith Lia Ascii String.
From stdpp Require Import base tactics option list sorting strings pretty gmap.

Local Open Scope Z_scope.

(** ** Python primitives used by the handlers *)

Module Py.

(** [s.split(sep)] for a one-character separator: the list of the
    maximal runs between separators; never empty. *)
Fixpoint split (sep : ascii) (s : string) : list string :=
  match s with
  | EmptyString => [EmptyString]
  | String c rest =>
      if decide (c = sep) then EmptyString :: split sep rest
      else match split sep rest with
           | [] => [String c EmptyString]
           | part :: parts => String c part :: parts
           end
  end.

(** [sep in s] for a one-character [sep]. *)
Fixpoint contains (sep : ascii) (s : string) : bool :=
  match s with
  | EmptyString => false
  | String c rest => bool_decide (c = sep) || contains sep rest
  end.

(** ["a{}".format(i)] *)
Definition format_a (i : nat) : string := "a" +:+ pretty i.

(** [str(n)] on integers. *)
Definition str (z : Z) : string := pretty z.

(** [len(xs)] *)
Definition len {A} (xs : list A) : Z := Z.of_nat (length xs).

End Py.

(** ** Data model *)

(** Modelled from the spec: the ORM class [TxAddrMapping]
    ([models/TxAddrMapping.py] is not among the sources); one row of the
    address to transaction mapping: [address], [transaction_id],
    [block_time] (milliseconds since epoch). *)
Record TxAddrMapping := mkTxAddrMapping {
  address : string;
  transaction_id : string;
  block_time : Z
}.

Global Instance TxAddrMapping_eq_dec : EqDecision TxAddrMapping.
Proof. solve_decision. Defined.

(** [PreviousOutpointLookupMode] *)
Inductive PreviousOutpointLookupMode := no | light | full.

(** Modelled from the spec: [TxModel], the hydrated record returned by
    [search_for_transactions] ([endpoints/get_transactions.py] is not
    among the sources). Only its identity is visible to this module. *)
Record TxModel := mkTxModel {
  tx_transaction_id : string;
  tx_block_time : option Z
}.

(** [TxSearch(transactionIds=...)] *)
Record TxSearch := mkTxSearch { transactionIds : list string }.

(** [TxIdResponse] *)
Record TxIdResponse := mkTxIdResponse {
  resp_address : string;
  active : bool
}.

Global Instance TxIdResponse_eq_dec : EqDecision TxIdResponse.
Proof. solve_decision. Defined.

(** ** Statements sent to the store *)

Module Sql.

Inductive Column := col_transaction_id | col_block_time.

(** The three criteria the handlers build on [TxAddrMapping]. *)
Inductive Criterion :=
| address_eq (a : string)      (* TxAddrMapping.address == a *)
| block_time_lt (t : Z)         (* TxAddrMapping.block_time < t *)
| block_time_eq (t : Z).        (* TxAddrMapping.block_time == t *)

Inductive Ordering := block_time_desc.

(** A generative [select(...)]: every method returns a copy with one
    clause set; the clauses are interpreted on execution, whatever the
    order the methods were called in. *)
Record Select := mkSelect {
  columns : list Column;
  whereclause : list Criterion;
  limit_clause : option Z;
  offset_clause : option Z;
  order_by_clause : option Ordering
}.

Definition select (cols : list Column) : Select :=
  mkSelect cols [] None None None.

Definition filter (c : Criterion) (q : Select) : Select :=
  mkSelect (columns q) (whereclause q ++ [c]) (limit_clause q)
           (offset_clause q) (order_by_clause q).

Definition limit (n : Z) (q : Select) : Select :=
  mkSelect (columns q) (whereclause q) (Some n)
           (offset_clause q) (order_by_clause q).

Definition offset (n : Z) (q : Select) : Select :=
  mkSelect (columns q) (whereclause q) (limit_clause q)
           (Some n) (order_by_clause q).

Definition order_by (o : Ordering) (q : Select) : Select :=
  mkSelect (columns q) (whereclause q) (limit_clause q)
           (offset_clause q) (Some o).

(** The statements of this module: an ORM select on the mapping, or the
    textual anti-join of [get_addresses_active], given by the bind names
    of its [VALUES] rows and the dictionary of bound parameters. *)
Inductive Statement :=
| orm (q : Select)
| text_anti_join (values_binds : list string) (params : gmap string string).

Definition holds (c : Criterion) (r : TxAddrMapping) : Prop :=
  match c with
  | address_eq a => address r = a
  | block_time_lt t => block_time r < t
  | block_time_eq t => block_time r = t
  end.

Global Instance holds_dec c r : Decision (holds c r).
Proof. destruct c; simpl; apply _. Defined.

(** A row is selected when every criterion of the WHERE clause holds. *)
Definition matches (cs : list Criterion) (r : TxAddrMapping) : Prop :=
  Forall (λ c, holds c r) cs.

Global Instance matches_dec cs r : Decision (matches cs r).
Proof. unfold matches. apply _. Defined.

(** [ORDER BY block_time DESC]: [newer_first x y] when [x] may precede [y]. *)
Definition newer_first (x y : TxAddrMapping) : Prop :=
  block_time y ≤ block_time x.

Global Instance newer_first_dec x y : Decision (newer_first x y).
Proof. unfold newer_first. apply _. Defined.

End Sql.

Notation "q '|>' m" := (m q) (at level 45, left associativity, only parsing).

(** ** Exceptions and results *)

Inductive Exn :=
| IndexError                         (* list index out of range *)
| DBAPIError                         (* the store rejected the statement *)
| HTTPException (status_code : Z).   (* raised by a collaborator *)

Inductive Result (A : Type) :=
| Ok (a : A)
| Raise (e : Exn).
Arguments Ok {A} a.
Arguments Raise {A} e.

(** ** The world a handler runs in *)

Inductive Event :=
| Executed (s : Sql.Statement)
| Searched (search : TxSearch) (fields : string)
           (resolve_previous_outpoints : PreviousOutpointLookupMode).

Record World := mkWorld {
  (** rows behind [TxAddrMapping], in the order the store keeps them *)
  tx_addr_mapping : list TxAddrMapping;
  (** the [address] column of [addresses_transactions], as the textual
      anti-join reads it (keyed by payload); how the ORM class maps onto
      this table is not in the sources, so the two views are kept apart *)
  addresses_transactions : list string;
  (** [int(time.time() * 1000)] *)
  clock_ms : Z;
  (** Modelled from the spec: [search_for_transactions]
      ([endpoints/get_transactions.py] is not among the sources):
      hydrate(transaction_ids, fieldMask, resolveDepth) gives an ordered
      sequence of transaction records, or fails. *)
  hydrate : TxSearch → string → PreviousOutpointLookupMode → Result (list TxModel);
  (** [response.headers] *)
  headers : gmap string string;
  (** calls that left the handler, oldest first *)
  trace : list Event
}.

Definition M (A : Type) : Type := World → Result A * World.

Definition ret {A} (a : A) : M A := λ w, (Ok a, w).

Definition raise {A} (e : Exn) : M A := λ w, (Raise e, w).

Definition bind {A B} (m : M A) (k : A → M B) : M B :=
  λ w, match m w with
       | (Ok a, w') => k a w'
       | (Raise e, w') => (Raise e, w')
       end.

Notation "'let!' x ':=' m 'in' k" := (bind m (λ x, k))
  (at level 10, x name, m at level 100, k at level 200, only parsing).
Notation "'do!' m 'in' k" := (bind m (λ _, k))
  (at level 10, m at level 100, k at level 200, only parsing).

Definition lift {A} (r : Result A) : M A := λ w, (r, w).

(** The world after some more calls have left the handler. *)
Definition logged (evs : list Event) (w : World) : World :=
  mkWorld (tx_addr_mapping w) (addresses_transactions w) (clock_ms w)
          (hydrate w) (headers w) (trace w ++ evs).

(** The world after [response.headers[k] = v]. *)
Definition with_header (k v : string) (w : World) : World :=
  mkWorld (tx_addr_mapping w) (addresses_transactions w) (clock_ms w)
          (hydrate w) (<[k:=v]> (headers w)) (trace w).

Definition log (e : Event) : M unit := λ w, (Ok tt, logged [e] w).

(** [int(time.time() * 1000)] *)
Definition time_ms : M Z := λ w, (Ok (clock_ms w), w).

(** [response.headers[k] = v] *)
Definition set_header (k v : string) : M unit := λ w, (Ok tt, with_header k v w).

(** ** The store *)

(** The store is reachable throughout and answers every well-formed
    statement. Rows with equal block times come back in the order the
    table keeps them; the properties below that compare two tables equal
    up to a permutation cover every other order. *)

Module Store.

(** [LIMIT n] / [OFFSET n]; the store rejects a negative count. *)
Definition bounded {A} (cut : nat → list A → list A) (n : option Z)
    (rows : list A) : Result (list A) :=
  match n with
  | None => Ok rows
  | Some n => if bool_decide (n < 0) then Raise DBAPIError
              else Ok (cut (Z.to_nat n) rows)
  end.

(** WHERE, then ORDER BY, then OFFSET, then LIMIT. *)
Definition run_select (q : Sql.Select) (table : list TxAddrMapping)
    : Result (list TxAddrMapping) :=
  let matched := filter (Sql.matches (Sql.whereclause q)) table in
  let ordered :=
    match Sql.order_by_clause q with
    | Some Sql.block_time_desc => merge_sort Sql.newer_first matched
    | None => matched
    end in
  match bounded drop (Sql.offset_clause q) ordered with
  | Ok skipped => bounded take (Sql.limit_clause q) skipped
  | Raise e => Raise e
  end.

(** Values of the bind names, in the order of the [VALUES] rows; a name
    without a parameter is refused. *)
Definition bound_values (binds : list string) (params : gmap string string)
    : option (list string) :=
  mapM (λ b, params !! b) binds.

(** [SELECT subquery.address FROM (VALUES ...) AS subquery (address)
     LEFT JOIN addresses_transactions t ON subquery.address = t.address
     WHERE t.address IS NULL]: the values without a matching row.
    [VALUES] needs at least one row: with no bind at all the text
    reads [FROM (VALUES ) AS subquery] and is refused. *)
Definition run_anti_join (binds : list string) (params : gmap string string)
    (table : list string) : Result (list string) :=
  match binds with
  | [] => Raise DBAPIError
  | _ =>
      match bound_values binds params with
      | None => Raise DBAPIError
      | Some values =>
          Ok (filter (λ v, v ∉ table) values)
      end
  end.

End Store.

(** What [s.execute(...).all()] yields: mapping rows for an ORM select,
    one-column rows for the textual statement. *)
Inductive Rows :=
| mapping_rows (rs : list TxAddrMapping)
| text_rows (rs : list string).

Definition run_statement (s : Sql.Statement) (w : World) : Result Rows :=
  match s with
  | Sql.orm q =>
      match Store.run_select q (tx_addr_mapping w) with
      | Ok rs => Ok (mapping_rows rs)
      | Raise e => Raise e
      end
  | Sql.text_anti_join binds params =>
      match Store.run_anti_join binds params (addresses_transactions w) with
      | Ok rs => Ok (text_rows rs)
      | Raise e => Raise e
      end
  end.

(** [await s.execute(stmt)] *)
Definition execute (s : Sql.Statement) : M Rows :=
  do! log (Executed s) in λ w, (run_statement s w, w).

Definition execute_select (q : Sql.Select) : M (list TxAddrMapping) :=
  let! rows := execute (Sql.orm q) in
  match rows with mapping_rows rs => ret rs | text_rows _ => raise DBAPIError end.

Definition execute_text (binds : list string) (params : gmap string string)
    : M (list string) :=
  let! rows := execute (Sql.text_anti_join binds params) in
  match rows with text_rows rs => ret rs | mapping_rows _ => raise DBAPIError end.

(** [await search_for_transactions(TxSearch(...), fields, mode)] *)
Definition search_for_transactions (search : TxSearch) (fields : string)
    (mode : PreviousOutpointLookupMode) : M (list TxModel) :=
  do! log (Searched search fields mode) in λ w, (hydrate w search fields mode, w).

(** ** The handlers *)

(** Declared bounds of the query parameters ([Query(ge=..., le=...)]);
    a request outside them never reaches the handler. *)
Definition valid_limit (limit : Z) : Prop := 1 ≤ limit ≤ 500.
Definition valid_before (before : Z) : Prop := 0 ≤ before.

(** Each handler below is the body of the route function, as it runs
    once the route has accepted the parameters. *)

(** [Query(default=...)]: the value of a query parameter the request
    leaves out. *)
Definition Query {A} (default : A) (given : option A) : A :=
  match given with
  | Some v => v
  | None => default
  end.

(** *** GET /addresses/{kaspaAddress}/full-transactions *)



(** *** POST /addresses/active *)

(** [address.split(":")[1]] *)
Definition payload (address : string) : Result string :=
  match Py.split ":" address !! 1%nat with
  | Some p => Ok p
  | None => Raise IndexError
  end.

(** [",".join(["(:a{})".format(i) for i in range(len(addresses))])]: the
    bind names of the [VALUES] rows. *)
Definition values_binds (addresses : list string) : list string :=
  fmap Py.format_a (seq 0 (length addresses)).

(** [{"a{}".format(i): address.split(":")[1] for i, address in
     enumerate(addresses)}], built left to right from index [i]. *)
Fixpoint bind_params (i : nat) (addresses : list string)
    (params : gmap string string) : Result (gmap string string) :=
  match addresses with
  | [] => Ok params
  | address :: rest =>
      match payload address with
      | Ok p => bind_params (S i) rest (<[Py.format_a i := p]> params)
      | Raise e => Raise e
      end
  end.

(** [[TxIdResponse(address=address,
        active=(address.split(":")[1] not in non_active_addresses))
      for address in addresses]] *)
Fixpoint active_responses (non_active_addresses : list string)
    (addresses : list string) : Result (list TxIdResponse) :=
  match addresses with
  | [] => Ok []
  | address :: rest =>
      match payload address with
      | Ok p =>
          match active_responses non_active_addresses rest with
          | Ok rs =>
              Ok (mkTxIdResponse address (bool_decide (p ∉ non_active_addresses)) :: rs)
          | Raise e => Raise e
          end
      | Raise e => Raise e
      end
  end.

Definition get_addresses_active (addresses : list string) : M (list TxIdResponse) :=
  let query := values_binds addresses in
  let! params := lift (bind_params 0 addresses ∅) in
  let! non_active_addresses := execute_text query params in
  lift (active_responses non_active_addresses addresses).

(** *** GET /addresses/{kaspaAddress}/full-transactions-page *)

Definition page_query (kaspaAddress : string) (limit before : Z) : Sql.Select :=
  Sql.select [Sql.col_transaction_id; Sql.col_block_time]
    |> Sql.filter (Sql.address_eq kaspaAddress)
    |> Sql.filter (Sql.block_time_lt before)
    |> Sql.limit limit
    |> Sql.order_by Sql.block_time_desc.

Definition same_block_time_query (kaspaAddress : string) (oldest_block_time : Z)
    : Sql.Select :=
  Sql.select [Sql.col_transaction_id]
    |> Sql.filter (Sql.address_eq kaspaAddress)
    |> Sql.filter (Sql.block_time_eq oldest_block_time).

(** [xs[-1]] *)
Definition last_item {A} (xs : list A) : Result A :=
  match last xs with
  | Some x => Ok x
  | None => Raise IndexError
  end.

Definition get_full_transactions_for_address_page (kaspaAddress : string)
    (limit before : Z) (fields : string)
    (resolve_previous_outpoints : PreviousOutpointLookupMode) : M (list TxModel) :=
  let! before := (if bool_decide (before = 0) then time_ms else ret before) in
  let! tx_within_limit_before :=
    execute_select (page_query kaspaAddress limit before) in
  let tx_ids_and_block_times :=
    fmap (λ x, (transaction_id x, block_time x)) tx_within_limit_before in
  match tx_ids_and_block_times with
  | [] => ret []
  | _ =>
      let tx_ids : gset string := list_to_set (fmap fst tx_ids_and_block_times) in
      let! oldest := lift (last_item tx_ids_and_block_times) in
      let oldest_block_time := snd oldest in
      let! tx_ids :=
        (if bool_decide (Py.len tx_ids_and_block_times = limit) then
           let! tx_with_same_block_time :=
             execute_select (same_block_time_query kaspaAddress oldest_block_time) in
           ret (tx_ids ∪ list_to_set (fmap transaction_id tx_with_same_block_time))
         else ret tx_ids) in
      do! set_header "X-Current-Page" (Py.str (Z.of_nat (size tx_ids))) in
      do! set_header "X-Oldest-Epoch-Millis" (Py.str oldest_block_time) in
      search_for_transactions (mkTxSearch (elements tx_ids)) fields
        resolve_previous_outpoints
  end.

(** The route with its query parameters as the request gives them:
    [limit] defaults to 50 and [before] to 0. *)
Definition full_transactions_page_route (kaspaAddress : string)
    (limit before : option Z) (fields : string)
    (resolve_previous_outpoints : PreviousOutpointLookupMode) : M (list TxModel) :=
  get_full_transactions_for_address_page kaspaAddress (Query 50 limit)
    (Query 0 before) fields resolve_previous_outpoints.

(** ** The HTTP boundary ([server.py]) *)

Inductive Body (A : Type) :=
| json (a : A)
| message (m : string).
Arguments json {A} a.
Arguments message {A} m.

Record HttpResponse (A : Type) := mkHttpResponse {
  status_code : Z;
  content : Body A
}.
Arguments mkHttpResponse {A} _ _.
Arguments status_code {A} _.
Arguments content {A} _.

(** [@app.exception_handler(Exception)] *)
Definition unicorn_exception_handler {A} (exc : Exn) : HttpResponse A :=
  mkHttpResponse 500 (message "Internal server error").

(** What the framework sends for the outcome of a handler: the value as
    JSON with status 200, an [HTTPException] with its own status, any
    other exception through [unicorn_exception_handler]. *)
Definition respond {A} (r : Result A) : HttpResponse A :=
  match r with
  | Ok a => mkHttpResponse 200 (json a)
  | Raise (HTTPException code) => mkHttpResponse code (message "")
  | Raise e => unicorn_exception_handler e
  end.

(** A 400-class status. *)
Definition client_error (code : Z) : Prop := 400 ≤ code < 500.

(** A world with nothing logged and no header set. *)
Definition fresh (mapping : list TxAddrMapping) (activity : list string)
    (clock : Z) : World :=
  mkWorld mapping activity clock
          (λ s _ _, Ok (fmap (λ i, mkTxModel i None) (transactionIds s)))
          ∅ [].

(** ** The other handlers *)

(** *** GET /addresses/{kaspaAddress}/transactions-count *)

(** [TransactionCount] *)
Record TransactionCount := mkTransactionCount { total : Z }.

(** [select(func.count()).filter(TxAddrMapping.address == kaspaAddress)]:
    the aggregate is no column of the mapping; the statement is given by
    the rows it counts. *)
Definition count_query (kaspaAddress : string) : Sql.Select :=
  Sql.select [] |> Sql.filter (Sql.address_eq kaspaAddress).

(** [(await s.execute(count_query)).scalar()]: the number of rows the
    statement selects. *)
Definition execute_count (q : Sql.Select) : M Z :=
  let! rows := execute_select q in
  ret (Py.len rows).

Definition get_transaction_count_for_address (kaspaAddress : string)
    : M TransactionCount :=
  let! tx_count := execute_count (count_query kaspaAddress) in
  ret (mkTransactionCount tx_count).

(** *** GET /addresses/{kaspaAddress}/name *)

(** Modelled from the spec: the ORM class [AddressKnown]
    ([models/AddressKnown.py] is not among the sources): an address and
    the name it is known by. *)
Record AddressKnown := mkAddressKnown {
  known_address : string;
  known_name : string
}.

(** [AddressName] *)
Record AddressName := mkAddressName {
  name_address : string;
  name : string
}.

(** [HTTPException(status_code=..., detail=..., headers=...)] *)
Record HTTPExceptionWithHeaders := mkHTTPException {
  exc_status_code : Z;
  exc_detail : string;
  exc_headers : gmap string string
}.

(** [(await s.execute(select(AddressKnown)
        .filter(AddressKnown.address == kaspaAddress))).first()]:
    the first matching row in the order the store returns them, if any. *)
Definition first_known (known : list AddressKnown) (kaspaAddress : string)
    : option AddressKnown :=
  head (filter (λ r, known_address r = kaspaAddress) known).

(** The handler over the rows of [AddressKnown] and the headers of the
    response object: the value returned or the exception raised, and the
    headers of the response object afterwards. *)
Definition get_name_for_address (known : list AddressKnown)
    (response_headers : gmap string string) (kaspaAddress : string)
    : (AddressName + HTTPExceptionWithHeaders) * gmap string string :=
  let r := first_known known kaspaAddress in
  let response_headers :=
    <["Cache-Control" := "public, max-age=600"]> response_headers in
  match r with
  | Some r =>
      (inl (mkAddressName (known_address r) (known_name r)), response_headers)
  | None =>
      (inr (mkHTTPException 404 "Address name not found"
              {["Cache-Control" := "public, max-age=600"]}),
       response_headers)
  end.

(** What is sent for the outcome of [get_name_for_address]. *)
Record NameReply := mkNameReply {
  reply_status : Z;
  reply_headers : gmap string string;
  reply_body : AddressName + string
}.

(** A returned value goes out with status 200 and the headers of the
    response object; an [HTTPException] with its own status, detail and
    headers. *)
Definition name_reply
    (out : (AddressName + HTTPExceptionWithHeaders) * gmap string string)
    : NameReply :=
  match out with
  | (inl a, response_headers) => mkNameReply 200 response_headers (inl a)
  | (inr exc, _) =>
      mkNameReply (exc_status_code exc) (exc_headers exc) (inr (exc_detail exc))
  end.

(** *** GET /ping ([server.py]) *)

(** [KaspadStatus] *)
Record KaspadStatus := mkKaspadStatus {
  kaspad_is_online : bool;
  server_version : option string;
  is_utxo_indexed : option bool;
  is_synced : option bool
}.

(** [DatabaseStatus] *)
Record DatabaseStatus := mkDatabaseStatus { database_is_online : bool }.

(** [PingResponse] *)
Record PingResponse := mkPingResponse {
  kaspad : KaspadStatus;
  database : DatabaseStatus
}.

(** [info["getInfoResponse"]], with the three keys [ping_server] reads:
    each is present with a value of the type [KaspadStatus] declares, or
    absent. *)
Record GetInfoResponse := mkGetInfoResponse {
  serverVersion : option string;
  isUtxoIndexed : option bool;
  isSynced : option bool
}.

(** What [ping_server] finds around it: the outcome of
    [kaspad_client[0].get_info()] (an exception, or a reply with or
    without the key ["getInfoResponse"]), [os.getenv("SQL_URI")], and the
    outcome of [session.execute("SELECT 1")]. *)
Record PingEnv := mkPingEnv {
  get_info : Result (option GetInfoResponse);
  SQL_URI : option string;
  select_1 : Result unit
}.

(** The first [try] block: the status filled in so far, and whether an
    exception was caught. A missing key raises at its lookup and leaves
    the fields assigned before it. *)
Definition ping_kaspad (reply : Result (option GetInfoResponse))
    : KaspadStatus * bool :=
  match reply with
  | Raise _ => (mkKaspadStatus false None None None, true)
  | Ok info =>
      match info with
      | None => (mkKaspadStatus true None None None, true)
      | Some r =>
          match serverVersion r with
          | None => (mkKaspadStatus true None None None, true)
          | Some v =>
              match isUtxoIndexed r with
              | None => (mkKaspadStatus true (Some v) None None, true)
              | Some u =>
                  match isSynced r with
                  | None => (mkKaspadStatus true (Some v) (Some u) None, true)
                  | Some s =>
                      (mkKaspadStatus true (Some v) (Some u) (Some s), false)
                  end
              end
          end
      end
  end.

(** The second [try] block, entered when [SQL_URI] is set. *)
Definition ping_database (env : PingEnv) : DatabaseStatus * bool :=
  match SQL_URI env with
  | None => (mkDatabaseStatus false, false)
  | Some _ =>
      match select_1 env with
      | Ok _ => (mkDatabaseStatus true, false)
      | Raise _ => (mkDatabaseStatus false, true)
      end
  end.

(** [not result.kaspad.is_synced] *)
Definition not_synced (k : KaspadStatus) : bool :=
  match is_synced k with
  | Some s => negb s
  | None => true
  end.

Definition ping_server (env : PingEnv) : HttpResponse PingResponse :=
  let '(kaspad_status, error1) := ping_kaspad (get_info env) in
  let '(database_status, error2) := ping_database env in
  let result := mkPingResponse kaspad_status database_status in
  let error := error1 || error2 in
  if error || not_synced kaspad_status
  then mkHttpResponse 500 (json result)
  else mkHttpResponse 200 (json result).

(** ** Observations on a run *)

(** The cursor the pager works with: [before], or the clock when it is 0. *)
Definition effective_before (w : World) (before : Z) : Z :=
  if bool_decide (before = 0) then clock_ms w else before.

(** The rows of an address. *)
Definition history (a : string) (table : list TxAddrMapping) : list TxAddrMapping :=
  filter (λ r, address r = a) table.

(** The rows of an address strictly before a cursor. *)
Definition history_before (a : string) (b : Z) (table : list TxAddrMapping)
    : list TxAddrMapping :=
  filter (λ r, address r = a ∧ block_time r < b) table.

(** The rows of an address at a given block time. *)
Definition history_at (a : string) (t : Z) (table : list TxAddrMapping)
    : list TxAddrMapping :=
  filter (λ r, address r = a ∧ block_time r = t) table.

Definition newest_first (rows : list TxAddrMapping) : list TxAddrMapping :=
  merge_sort Sql.newer_first rows.

(** The answer to the first query of the pager. *)
Definition first_batch (a : string) (limit b : Z) (table : list TxAddrMapping)
    : list TxAddrMapping :=
  take (Z.to_nat limit) (newest_first (history_before a b table)).

(** The identifier set of a page whose first batch ends with [oldest]. *)
Definition page_ids (a : string) (limit : Z) (batch : list TxAddrMapping)
    (oldest : TxAddrMapping) (table : list TxAddrMapping) : gset string :=
  if bool_decide (Py.len batch = limit)
  then list_to_set (fmap transaction_id batch)
       ∪ list_to_set (fmap transaction_id (history_at a (block_time oldest) table))
  else list_to_set (fmap transaction_id batch).

(** The calls a run added to the log. *)
Definition new_events (w w' : World) : list Event :=
  drop (length (trace w)) (trace w').

(** The identifier lists handed to [search_for_transactions]. *)
Definition searched_ids (evs : list Event) : list (list string) :=
  omap (λ e, match e with
             | Searched s _ _ => Some (transactionIds s)
             | Executed _ => None
             end) evs.


(** The page of the offset pager, in the words of its contract: the rows
    of the address by descending block time, [offset] skipped, [limit]
    taken. *)
Definition offset_page_spec (a : string) (limit offset : nat)
    (table : list TxAddrMapping) : list string :=
  fmap transaction_id (take limit (drop offset (newest_first (history a table)))).

(** The mapping row of an address. *)
Definition row (a x : string) (t : Z) : TxAddrMapping := mkTxAddrMapping a x t.

(** The outcome of a handler with the values projected by [f]. *)
Definition result_map {A B} (f : A → B) (r : Result A) : Result B :=
  match r with
  | Ok a => Ok (f a)
  | Raise e => Raise e
  end.


(** ** Sample stores *)

Module Sample.

Definition alice : string := "kaspa:qalice".
Definition bob : string := "kaspa:qbob".
Definition carol : string := "kaspa:qcarol".

(** Four transactions of [alice], two of them in the same block, and
    one of [bob], kept oldest first. *)
Definition mapping : list TxAddrMapping :=
  [row alice "tx4" 10; row alice "tx3" 30; row bob "tx5" 35;
   row alice "tx2" 30; row alice "tx1" 40].

(** [tx2] both spends from and pays to [alice]: two rows. *)
Definition mapping_twice : list TxAddrMapping :=
  [row alice "tx3" 20; row alice "tx2" 30; row alice "tx2" 30;
   row alice "tx1" 40].


(** [alice] and [carol] have transactions, [bob] has none. *)
Definition activity : list string := ["qalice"; "qcarol"].

Definition world : World := fresh mapping activity 1000.
Definition world_twice : World := fresh mapping_twice activity 1000.

End Sample.

(** Steps through the monad of a handler. *)
Ltac run_monad :=
  repeat progress
    (unfold search_for_transactions, set_header, log, lift, ret, bind,
       logged, with_header;
     cbn [fst snd tx_addr_mapping addresses_transactions clock_ms hydrate
          headers trace]).

(** * Properties *)

(** ** Splitting an address *)

Section split.
Variable sep : ascii.

Lemma split_not_nil s : Py.split sep s ≠ [].
Proof.
  destruct s as [|c s]; simpl; [done|].
  case_decide; [done|]. by destruct (Py.split sep s).
Qed.

Lemma split_without s :
  Py.contains sep s = false → Py.split sep s = [s].
Proof.
  induction s as [|c s IH]; simpl; [done|].
  intros [Hc Hs]%orb_false_elim.
  apply bool_decide_eq_false in Hc.
  rewrite decide_False by done. by rewrite IH.
Qed.

Lemma split_with p q :
  Py.contains sep p = false →
  Py.split sep (p +:+ String sep q) = p :: Py.split sep q.
Proof.
  induction p as [|c p IH]; simpl.
  - intros _. by rewrite decide_True.
  - intros [Hc Hp]%orb_false_elim.
    apply bool_decide_eq_false in Hc.
    rewrite decide_False by done. by rewrite IH.
Qed.

Lemma split_length_contains s :
  Py.contains sep s = true → (2 ≤ length (Py.split sep s))%nat.
Proof.
  induction s as [|c s IH]; simpl; [done|].
  case_decide as Hc.
  - intros _. simpl. pose proof (split_not_nil s).
    destruct (Py.split sep s); simpl; [done|lia].
  - rewrite bool_decide_eq_false_2 by done. simpl. intros Hs.
    specialize (IH Hs). destruct (Py.split sep s); simpl in *; lia.
Qed.
End split.

Lemma payload_IndexError a :
  Py.contains ":" a = false → payload a = Raise IndexError.
Proof. intros H. unfold payload. by rewrite split_without. Qed.

Lemma payload_Ok a :
  Py.contains ":" a = true → ∃ p, payload a = Ok p.
Proof.
  intros H%split_length_contains. unfold payload.
  destruct (Py.split ":" a) as [|x [|y l]]; simpl in *; [lia..|]. eauto.
Qed.

Lemma payload_Ok_contains a p :
  payload a = Ok p → Py.contains ":" a = true.
Proof.
  intros H. destruct (Py.contains ":" a) eqn:E; [done|].
  by rewrite payload_IndexError in H.
Qed.

(** The payload is the run between the first and the second [":"]. *)
Lemma payload_between prefix p :
  Py.contains ":" prefix = false → Py.contains ":" p = false →
  payload (prefix +:+ ":" +:+ p) = Ok p
  ∧ ∀ rest, payload (prefix +:+ ":" +:+ p +:+ ":" +:+ rest) = Ok p.
Proof.
  intros Hprefix Hp. unfold payload. split.
  - change (":" +:+ p) with (String ":" p).
    by rewrite split_with, split_without.
  - intros rest. change (":" +:+ p +:+ ":" +:+ rest) with (String ":" (p +:+ String ":" rest)).
    by rewrite !split_with.
Qed.

(** ** What the store answers *)

Global Instance newer_first_trans : Transitive Sql.newer_first.
Proof. unfold Sql.newer_first. intros x y z. lia. Qed.

Global Instance newer_first_total : Total Sql.newer_first.
Proof. unfold Sql.newer_first. intros x y. lia. Qed.





Lemma run_page_query table a limit b :
  0 ≤ limit →
  Store.run_select (page_query a limit b) table = Ok (first_batch a limit b table).
Proof.
  intros Hl. unfold Store.run_select, first_batch, history_before. simpl.
  rewrite bool_decide_eq_false_2 by lia. do 2 f_equal.
  unfold newest_first. f_equal. apply list_filter_iff. intros r.
  unfold Sql.matches. rewrite !Forall_cons, Forall_nil. simpl. tauto.
Qed.

Lemma run_same_block_time_query table a t :
  Store.run_select (same_block_time_query a t) table = Ok (history_at a t table).
Proof.
  unfold Store.run_select, history_at. simpl. f_equal.
  apply list_filter_iff. intros r.
  unfold Sql.matches. rewrite !Forall_cons, Forall_nil. simpl. tauto.
Qed.


(** ** The runs of the pagers, step by step *)

Lemma len_elements (s : gset string) : Py.len (elements s) = Z.of_nat (size s).
Proof. reflexivity. Qed.

Lemma new_events_logged evs w : new_events w (logged evs w) = evs.
Proof. unfold new_events, logged. simpl. by rewrite drop_app_length. Qed.


Lemma execute_same_block_time_query w a t :
  execute_select (same_block_time_query a t) w =
  (Ok (history_at a t (tx_addr_mapping w)),
   logged [Executed (Sql.orm (same_block_time_query a t))] w).
Proof.
  unfold execute_select, execute, bind, log, ret, run_statement.
  cbn [fst snd logged tx_addr_mapping]. by rewrite run_same_block_time_query.
Qed.

Lemma page_run w a limit before fields mode :
  0 ≤ limit →
  let b := effective_before w before in
  let batch := first_batch a limit b (tx_addr_mapping w) in
  get_full_transactions_for_address_page a limit before fields mode w =
  match last batch with
  | None => (Ok [], logged [Executed (Sql.orm (page_query a limit b))] w)
  | Some oldest =>
      let ids := elements (page_ids a limit batch oldest (tx_addr_mapping w)) in
      (hydrate w (mkTxSearch ids) fields mode,
       logged
         (Executed (Sql.orm (page_query a limit b))
          :: (if bool_decide (Py.len batch = limit)
              then [Executed (Sql.orm (same_block_time_query a (block_time oldest)))]
              else [])
          ++ [Searched (mkTxSearch ids) fields mode])
         (with_header "X-Oldest-Epoch-Millis" (Py.str (block_time oldest))
            (with_header "X-Current-Page" (Py.str (Py.len ids)) w)))
  end.
Proof.
  intros Hl b batch.
  assert (Hfirst : ∀ w0, tx_addr_mapping w0 = tx_addr_mapping w →
            execute_select (page_query a limit b) w0 =
            (Ok batch, logged [Executed (Sql.orm (page_query a limit b))] w0)).
  { intros w0 E. unfold execute_select, execute, bind, log, ret, run_statement.
    simpl. rewrite E, run_page_query by done. done. }
  unfold get_full_transactions_for_address_page.
  unfold bind at 1.
  assert (Hcursor : (if bool_decide (before = 0) then time_ms else ret before) w
                    = (Ok b, w)).
  { unfold b, effective_before, time_ms, ret. by case_bool_decide. }
  rewrite Hcursor. unfold bind at 1. rewrite Hfirst by done.
  destruct (last batch) as [oldest|] eqn:Hlast.
  2:{ apply last_None in Hlast. by rewrite Hlast. }
  destruct batch as [|r0 batch'] eqn:Hbatch; [done|].
  rewrite <- Hbatch in *. clear batch' Hbatch r0.
  set (pairs := fmap (λ x, (transaction_id x, block_time x)) batch).
  assert (Hpairs : last pairs = Some (transaction_id oldest, block_time oldest)).
  { unfold pairs. by rewrite fmap_last, Hlast. }
  assert (Hlen : Py.len pairs = Py.len batch).
  { unfold Py.len, pairs. by rewrite length_fmap. }
  assert (Hids : pairs.*1 = transaction_id <$> batch).
  { unfold pairs. by rewrite <- list_fmap_compose. }
  destruct pairs as [|p0 pairs'] eqn:Hp; [done|]. rewrite <- Hp in *.
  unfold bind at 1, lift, last_item. rewrite Hpairs. cbn [snd].
  rewrite Hlen, Hids. unfold page_ids.
  rewrite !len_elements.
  destruct (bool_decide (Py.len batch = limit)).
  - unfold bind at 1. unfold bind at 1.
    rewrite execute_same_block_time_query. run_monad.
    by rewrite <- !app_assoc.
  - run_monad. by rewrite <- !app_assoc.
Qed.

(** ** The first batch and the window a page covers *)

Section window.
Variables (a : string) (limit b : Z) (table : list TxAddrMapping).
Hypothesis limit_nonneg : 0 ≤ limit.

Let ordered := newest_first (history_before a b table).
Let batch := first_batch a limit b table.













End window.

(** ** The order in which the store keeps or returns tied rows *)






(** ** What a run of the time-cursor pager leaves behind *)

Lemma page_outcome w a limit before fields mode :
  0 ≤ limit →
  let b := effective_before w before in
  let batch := first_batch a limit b (tx_addr_mapping w) in
  let out := get_full_transactions_for_address_page a limit before fields mode w in
  match last batch with
  | None =>
      out.1 = Ok []
      ∧ new_events w out.2 = [Executed (Sql.orm (page_query a limit b))]
      ∧ headers out.2 = headers w
  | Some oldest =>
      let ids := elements (page_ids a limit batch oldest (tx_addr_mapping w)) in
      out.1 = hydrate w (mkTxSearch ids) fields mode
      ∧ new_events w out.2 =
          Executed (Sql.orm (page_query a limit b))
          :: (if bool_decide (Py.len batch = limit)
              then [Executed (Sql.orm (same_block_time_query a (block_time oldest)))]
              else [])
          ++ [Searched (mkTxSearch ids) fields mode]
      ∧ headers out.2 =
          <["X-Oldest-Epoch-Millis" := Py.str (block_time oldest)]>
            (<["X-Current-Page" := Py.str (Py.len ids)]> (headers w))
  end.
Proof.
  intros Hl b batch out. unfold out. rewrite page_run by done.
  fold b. fold batch. destruct (last batch) as [oldest|]; cbn [fst snd].
  - split; [done|]. split; [|done].
    match goal with |- new_events w (logged ?evs ?w1) = _ =>
      change (new_events w1 (logged evs w1) = evs) end.
    apply new_events_logged.
  - split; [done|]. split; [|done]. apply new_events_logged.
Qed.





Lemma history_before_of_history a b table :
  history_before a b table = filter (λ r, block_time r < b) (history a table).
Proof.
  unfold history_before, history. rewrite list_filter_filter.
  apply list_filter_iff. intros r. tauto.
Qed.

Lemma elem_of_history a table r :
  r ∈ history a table ↔ r ∈ table ∧ address r = a.
Proof. unfold history. rewrite list_elem_of_filter. tauto. Qed.


(** ** The time-cursor pager *)


Lemma filter_all {A} (P : A → Prop) `{∀ x, Decision (P x)} (l : list A) :
  (∀ x, x ∈ l → P x) → filter P l = l.
Proof.
  induction l as [|x l IH]; intros Hall; [done|].
  rewrite filter_cons_True by (apply Hall; left).
  f_equal. apply IH. intros y Hy. apply Hall. by right.
Qed.





(** C8. The cursor of the first query is the clock when [before] is 0 or
    left out, and [before] itself when it is positive; with the clock past
    every stored row, the first query returns the newest rows of the
    address. *)
Theorem page_cursor_defaults_to_now w a limit before fields mode :
  valid_limit limit →
  let out := get_full_transactions_for_address_page a limit before fields mode w in
  (before = 0 →
     ∃ rest, new_events w out.2
             = Executed (Sql.orm (page_query a limit (clock_ms w))) :: rest)
  ∧ (∃ rest, new_events w (full_transactions_page_route a (Some limit) None
                             fields mode w).2
             = Executed (Sql.orm (page_query a limit (clock_ms w))) :: rest)
  ∧ (0 < before →
     ∃ rest, new_events w out.2
             = Executed (Sql.orm (page_query a limit before)) :: rest)
  ∧ (Forall (λ r, block_time r < clock_ms w) (tx_addr_mapping w) →
     Store.run_select (page_query a limit (clock_ms w)) (tx_addr_mapping w)
     = Ok (take (Z.to_nat limit) (newest_first (history a (tx_addr_mapping w))))).
Proof.
  intros Hvalid out.
  assert (Hl : 0 ≤ limit) by (unfold valid_limit in Hvalid; lia).
  assert (Hfirst : ∀ before',
            ∃ rest, new_events w (get_full_transactions_for_address_page
                                    a limit before' fields mode w).2
            = Executed (Sql.orm (page_query a limit (effective_before w before')))
              :: rest).
  { intros before'.
    pose proof (page_outcome w a limit before' fields mode Hl) as Hout.
    cbv zeta in Hout.
    destruct (last (first_batch a limit (effective_before w before')
                      (tx_addr_mapping w)));
      destruct Hout as (_ & -> & _); eauto. }
  split; [|split; [|split]].
  - intros ->. apply (Hfirst 0).
  - apply (Hfirst 0).
  - intros Hpos. specialize (Hfirst before). unfold effective_before in Hfirst.
    by rewrite bool_decide_eq_false_2 in Hfirst by lia.
  - intros Hpast. rewrite run_page_query by done. unfold first_batch.
    do 3 f_equal. rewrite history_before_of_history.
    apply filter_all. rewrite Forall_forall in Hpast. intros r Hr.
    apply Hpast. by apply elem_of_history in Hr as [? _].
Qed.


(** ** The offset pager *)



(** ** The batch activity check *)

Lemma format_a_inj i j : Py.format_a i = Py.format_a j → i = j.
Proof.
  unfold Py.format_a. intros H.
  change (String "a" (pretty i) = String "a" (pretty j)) in H.
  injection H as H. by apply (inj (pretty (A:=nat))) in H.
Qed.

Lemma payload_raises_IndexError a e : payload a = Raise e → e = IndexError.
Proof. unfold payload. destruct (_ !! _); congruence. Qed.

Lemma bind_params_malformed i addresses params :
  Exists (λ a, Py.contains ":" a = false) addresses →
  bind_params i addresses params = Raise IndexError.
Proof.
  intros Hex. revert i params.
  induction Hex as [a rest Ha|a rest Hex IH]; intros i params; simpl.
  - by rewrite payload_IndexError.
  - destruct (payload a) as [p|e] eqn:E; [apply IH|].
    by apply payload_raises_IndexError in E as ->.
Qed.

(** An address without [":"] fails the whole batch before anything is sent
    to the store. *)
Lemma addresses_active_malformed addresses w :
  Exists (λ a, Py.contains ":" a = false) addresses →
  get_addresses_active addresses w = (Raise IndexError, w).
Proof.
  intros Hex. unfold get_addresses_active, bind, lift.
  by rewrite bind_params_malformed.
Qed.

Lemma bind_params_spec addresses payloads : ∀ i params0,
  Forall2 (λ a p, payload a = Ok p) addresses payloads →
  ∃ params,
    bind_params i addresses params0 = Ok params
    ∧ (∀ j p, payloads !! j = Some p → params !! Py.format_a (i + j) = Some p)
    ∧ (∀ k, (∀ j, k ≠ Py.format_a (i + j)) → params !! k = params0 !! k).
Proof.
  intros i params0 Hall. revert i params0.
  induction Hall as [|a p addresses payloads Hp Hall IH]; intros i params0.
  - exists params0. simpl. split; [done|]. split; [|done].
    intros j p Hj. by rewrite lookup_nil in Hj.
  - simpl. rewrite Hp.
    destruct (IH (S i) (<[Py.format_a i := p]> params0)) as (params & Hrun & Hget & Hrest).
    exists params. split; [done|]. split.
    + intros [|j] q Hj; simpl in Hj.
      * injection Hj as <-. rewrite Hrest.
        -- replace (i + 0)%nat with i by lia. by rewrite lookup_insert_eq.
        -- intros j Heq%format_a_inj. lia.
      * replace (i + S j)%nat with (S i + j)%nat by lia. by apply Hget.
    + intros k Hk. rewrite Hrest.
      * apply lookup_insert_ne. intros Heq. apply (Hk 0%nat).
        by replace (i + 0)%nat with i by lia.
      * intros j Heq. apply (Hk (S j)).
        by replace (i + S j)%nat with (S i + j)%nat by lia.
Qed.

(** The store reads back the payloads, in the order of the addresses. *)
Lemma bound_values_of_bind_params addresses payloads params :
  Forall2 (λ a p, payload a = Ok p) addresses payloads →
  bind_params 0 addresses ∅ = Ok params →
  Store.bound_values (values_binds addresses) params = Some payloads.
Proof.
  intros Hall Hrun.
  destruct (bind_params_spec addresses payloads 0 ∅ Hall) as (params' & Hrun' & Hget & _).
  rewrite Hrun in Hrun'. injection Hrun' as <-.
  unfold Store.bound_values, values_binds. apply mapM_Some.
  apply Forall2_same_length_lookup. split.
  - rewrite length_fmap, length_seq. by eapply Forall2_length.
  - intros j b p Hb Hp. apply list_lookup_fmap_Some in Hb as (n & -> & Hn).
    apply lookup_seq in Hn as [-> _]. by apply Hget.
Qed.

Lemma active_responses_spec non_active addresses payloads :
  Forall2 (λ a p, payload a = Ok p) addresses payloads →
  active_responses non_active addresses =
  Ok (zip_with (λ a p, mkTxIdResponse a (bool_decide (p ∉ non_active)))
               addresses payloads).
Proof.
  induction 1 as [|a p addresses payloads Hp Hall IH]; simpl; [done|].
  by rewrite Hp, IH.
Qed.

(** The flags do not depend on the order, or the repetitions, of the
    rows the store returns. *)
Lemma active_responses_order non_active non_active' addresses :
  (∀ p, p ∈ non_active ↔ p ∈ non_active') →
  active_responses non_active addresses = active_responses non_active' addresses.
Proof.
  intros Hsame. induction addresses as [|a addresses IH]; simpl; [done|].
  destruct (payload a) as [p|]; [|done]. rewrite IH.
  by rewrite (bool_decide_ext (p ∉ non_active) (p ∉ non_active'))
    by (by rewrite Hsame).
Qed.

Lemma well_formed_payloads addresses :
  Forall (λ a, Py.contains ":" a = true) addresses →
  ∃ payloads, Forall2 (λ a p, payload a = Ok p) addresses payloads.
Proof.
  induction 1 as [|a addresses Ha Hall [payloads IH]]; [by exists []|].
  destruct (payload_Ok a Ha) as [p Hp]. exists (p :: payloads). by constructor.
Qed.

(** For a non-empty batch of well-formed addresses the answer has one
    entry per address, in the order of the input, and an address is active
    exactly when its payload is not among the rows the store returned,
    that is, when the activity table has a row for it. *)
Lemma addresses_active_in_order addresses payloads w :
  addresses ≠ [] →
  Forall2 (λ a p, payload a = Ok p) addresses payloads →
  let inactive := filter (λ p, p ∉ addresses_transactions w) payloads in
  ∃ params,
    bind_params 0 addresses ∅ = Ok params
    ∧ Store.run_anti_join (values_binds addresses) params (addresses_transactions w)
      = Ok inactive
    ∧ get_addresses_active addresses w =
      (Ok (zip_with (λ a p, mkTxIdResponse a (bool_decide (p ∉ inactive)))
                    addresses payloads),
       logged [Executed (Sql.text_anti_join (values_binds addresses) params)] w)
    ∧ zip_with (λ a p, mkTxIdResponse a (bool_decide (p ∉ inactive)))
               addresses payloads
      = zip_with (λ a p, mkTxIdResponse a (bool_decide (p ∈ addresses_transactions w)))
                 addresses payloads.
Proof.
  intros Hne Hall inactive.
  destruct (bind_params_spec addresses payloads 0 ∅ Hall) as (params & Hrun & _).
  exists params. split; [done|].
  pose proof (bound_values_of_bind_params _ _ _ Hall Hrun) as Hbound.
  assert (Hanti : Store.run_anti_join (values_binds addresses) params
                    (addresses_transactions w) = Ok inactive).
  { unfold Store.run_anti_join. rewrite Hbound.
    destruct addresses; [done|]. done. }
  split; [done|]. split.
  - unfold get_addresses_active, execute_text, execute, run_statement.
    run_monad. rewrite Hrun. cbn [fst snd]. rewrite Hanti.
    by rewrite (active_responses_spec _ _ _ Hall).
  - clear Hrun Hbound Hanti Hne.
    assert (Hin : ∀ p, p ∈ payloads → (p ∉ inactive ↔ p ∈ addresses_transactions w)).
    { intros p Hp. unfold inactive. rewrite list_elem_of_filter. split.
      - intros Hn. destruct (decide (p ∈ addresses_transactions w)) as [|Hd]; [done|].
        exfalso. apply Hn. by split.
      - intros Hd [Hn _]. done. }
    clearbody inactive.
    induction Hall as [|a p addresses payloads Hp Hall IH]; simpl; [done|].
    rewrite IH by (intros q Hq; apply Hin; by right). f_equal. f_equal.
    apply bool_decide_ext, Hin. left.
Qed.

Lemma new_events_same w : new_events w w = [].
Proof. unfold new_events. by rewrite drop_all. Qed.

(** C2. A batch with an address that has no [":"] stops on the
    [IndexError] of [split(":")[1]] before anything is sent to the store;
    the exception leaves through [unicorn_exception_handler], with status
    500 and not a 400-class validation error. *)
Theorem addresses_active_malformed_is_server_error w :
  let out := get_addresses_active ["kaspa:qalice"; "kaspaqbob"] w in
  out = (Raise IndexError, w)
  ∧ new_events w out.2 = []
  ∧ status_code (respond out.1) = 500
  ∧ ¬ client_error (status_code (respond out.1)).
Proof.
  intros out.
  assert (Hout : out = (Raise IndexError, w)).
  { apply addresses_active_malformed. apply Exists_cons_tl, Exists_cons_hd. done. }
  rewrite Hout. cbn [fst snd]. rewrite new_events_same.
  repeat split. unfold client_error. simpl. lia.
Qed.

(** C6. For the empty batch the statement has no [VALUES] row; the store
    refuses it and the request ends with status 500 instead of the empty
    list. *)
Theorem addresses_active_empty_batch_rejected w :
  let out := get_addresses_active [] w in
  out = (Raise DBAPIError, logged [Executed (Sql.text_anti_join [] ∅)] w)
  ∧ status_code (respond out.1) = 500.
Proof. done. Qed.

Lemma active_of_zip_with (f : string → bool) addresses payloads :
  length addresses = length payloads →
  active <$> zip_with (λ a p, mkTxIdResponse a (f p)) addresses payloads
  = f <$> payloads.
Proof.
  revert payloads. induction addresses as [|a addresses IH];
    intros [|p payloads] Hlen; simplify_eq/=; [done|].
  by rewrite IH.
Qed.

Lemma addresses_active_Ok addresses w rs :
  (get_addresses_active addresses w).1 = Ok rs →
  ∃ payloads inactive : list string,
    Forall2 (λ a p, payload a = Ok p) addresses payloads
    ∧ rs = zip_with (λ a p, mkTxIdResponse a (bool_decide (p ∉ inactive)))
                    addresses payloads.
Proof.
  intros Hrun.
  destruct (decide (Forall (λ a, Py.contains ":" a = true) addresses)) as [Hwf|Hbad].
  - destruct (well_formed_payloads _ Hwf) as [payloads Hall].
    destruct (decide (addresses = [])) as [->|Hne]; [done|].
    destruct (addresses_active_in_order _ _ w Hne Hall) as (params & _ & _ & Hout & _).
    rewrite Hout in Hrun. cbn [fst] in Hrun. injection Hrun as <-.
    by exists payloads, (filter (λ p, p ∉ addresses_transactions w) payloads).
  - apply not_Forall_Exists in Hbad; [|apply _].
    rewrite addresses_active_malformed in Hrun; [done|].
    eapply Exists_impl; [done|]. intros a Ha. by apply not_true_is_false.
Qed.

(** C10. The payload of an address is the run between its first and its
    second [":"]; two entries of a batch with equal payloads get equal
    flags; batches with the same list of payloads get the same list of
    flags over the same store. *)
Theorem active_flag_depends_on_payload_only :
  (∀ prefix p,
     Py.contains ":" prefix = false → Py.contains ":" p = false →
     payload (prefix +:+ ":" +:+ p) = Ok p
     ∧ ∀ rest, payload (prefix +:+ ":" +:+ p +:+ ":" +:+ rest) = Ok p)
  ∧ (∀ w addresses rs i j ri rj,
       (get_addresses_active addresses w).1 = Ok rs →
       rs !! i = Some ri → rs !! j = Some rj →
       payload (resp_address ri) = payload (resp_address rj) →
       addresses !! i = Some (resp_address ri)
       ∧ addresses !! j = Some (resp_address rj)
       ∧ active ri = active rj)
  ∧ (∀ w addresses1 addresses2,
       Forall2 (λ a1 a2, ∃ p, payload a1 = Ok p ∧ payload a2 = Ok p)
               addresses1 addresses2 →
       result_map (fmap active) (get_addresses_active addresses1 w).1
       = result_map (fmap active) (get_addresses_active addresses2 w).1).
Proof.
  split; [apply payload_between|]. split.
  - intros w addresses rs i j ri rj Hrun Hi Hj Hsame.
    apply addresses_active_Ok in Hrun as (payloads & inactive & Hall & ->).
    apply lookup_zip_with_Some in Hi as (ai & pi & -> & Hai & Hpi).
    apply lookup_zip_with_Some in Hj as (aj & pj & -> & Haj & Hpj).
    pose proof (Forall2_lookup_lr _ _ _ _ _ _ Hall Hai Hpi) as Hi.
    pose proof (Forall2_lookup_lr _ _ _ _ _ _ Hall Haj Hpj) as Hj.
    simpl in *. rewrite Hi, Hj in Hsame. by injection Hsame as ->.
  - intros w addresses1 addresses2 Hsame.
    assert (∃ payloads,
              Forall2 (λ a p, payload a = Ok p) addresses1 payloads
              ∧ Forall2 (λ a p, payload a = Ok p) addresses2 payloads)
      as (payloads & H1 & H2).
    { induction Hsame as [|a1 a2 l1 l2 (p & Hp1 & Hp2) _ (payloads & H1 & H2)].
      - exists []. by split.
      - exists (p :: payloads). split; by constructor. }
    destruct (decide (addresses1 = [])) as [->|Hne1].
    { apply Forall2_nil_inv_l in Hsame as ->. done. }
    assert (addresses2 ≠ []) as Hne2.
    { intros ->. by apply Forall2_nil_inv_r in Hsame. }
    destruct (addresses_active_in_order _ _ w Hne1 H1) as (? & _ & _ & -> & _).
    destruct (addresses_active_in_order _ _ w Hne2 H2) as (? & _ & _ & -> & _).
    cbn [fst result_map]. f_equal.
    rewrite !active_of_zip_with by by eapply Forall2_length. done.
Qed.

(** ** The theorems at sample stores *)

Lemma valid_limit_2 : valid_limit 2.
Proof. unfold valid_limit. lia. Defined.







(** The page of [Sample.world_twice]: [tx2] once, and a count of two. *)
Example page_with_repeated_transaction :
  let out := get_full_transactions_for_address_page Sample.alice 2 0 "" no
               Sample.world_twice in
  searched_ids (new_events Sample.world_twice out.2) = [["tx1"; "tx2"]]
  ∧ headers out.2 !! "X-Current-Page" = Some "2".
Proof. vm_compute. done. Qed.

Lemma page_cursor_defaults_to_now_witness :
  let w := Sample.world in
  let out := get_full_transactions_for_address_page Sample.alice 2 0 "" no w in
  ∃ rest, new_events w out.2
          = Executed (Sql.orm (page_query Sample.alice 2 1000)) :: rest.
Proof.
  intros w out.
  exact (proj1 (page_cursor_defaults_to_now w Sample.alice 2 0 "" no valid_limit_2)
               eq_refl).
Defined.




(** The newest transaction alone, for [limit = 1] and [offset = 0]. *)
Example offset_page_first_row :
  offset_page_spec Sample.alice 1 0 Sample.mapping = ["tx1"].
Proof. vm_compute. reflexivity. Qed.

Lemma active_flag_depends_on_payload_only_witness :
  result_map (fmap active)
    (get_addresses_active ["kaspa:qalice"; "kaspa:qbob"] Sample.world).1
  = result_map (fmap active)
      (get_addresses_active ["kaspatest:qalice:x"; "other:qbob"] Sample.world).1.
Proof.
  apply (proj2 (proj2 active_flag_depends_on_payload_only)).
  repeat constructor.
  - exists "qalice". split; vm_compute; reflexivity.
  - exists "qbob". split; vm_compute; reflexivity.
Defined.

(** [[A, B, C]] with only [B] inactive. *)
Example addresses_active_batch_of_three :
  (get_addresses_active [Sample.alice; Sample.bob; Sample.carol] Sample.world).1
  = Ok [mkTxIdResponse Sample.alice true; mkTxIdResponse Sample.bob false;
        mkTxIdResponse Sample.carol true].
Proof. vm_compute. reflexivity. Qed.

(** * Further properties *)

(** ** Pages of the time-cursor pager as windows of block times *)




(** ** How many identifiers a page holds *)





(** ** The transaction count and the offset pager *)

Lemma run_count_query table a :
  Store.run_select (count_query a) table = Ok (history a table).
Proof.
  unfold Store.run_select, history. simpl. f_equal.
  apply list_filter_iff. intros r.
  unfold Sql.matches. rewrite !Forall_cons, Forall_nil. simpl. tauto.
Qed.

Lemma transaction_count_run w a :
  get_transaction_count_for_address a w =
  (Ok (mkTransactionCount (Py.len (history a (tx_addr_mapping w)))),
   logged [Executed (Sql.orm (count_query a))] w).
Proof.
  unfold get_transaction_count_for_address, execute_count, execute_select,
    execute, run_statement.
  run_monad. by rewrite run_count_query.
Qed.

Lemma history_perm a table table' :
  table' ≡ₚ table → history a table' ≡ₚ history a table.
Proof. intros Hperm. unfold history. by rewrite Hperm. Qed.

(** X5. The count of an address answers with status 200 after a single
    statement; it is zero exactly when the address has no mapping row, a
    further row of the address raises it by one and a row of another
    address leaves it, and it does not depend on the order of the table. *)
Theorem transaction_count_is_row_count w a :
  let table := tx_addr_mapping w in
  let out := get_transaction_count_for_address a w in
  ∃ n,
    out.1 = Ok (mkTransactionCount n)
    ∧ status_code (respond out.1) = 200
    ∧ new_events w out.2 = [Executed (Sql.orm (count_query a))]
    ∧ 0 ≤ n
    ∧ (n = 0 ↔ ∀ r, r ∈ table → address r ≠ a)
    ∧ (∀ w' r, tx_addr_mapping w' = r :: table →
               (get_transaction_count_for_address a w').1
               = Ok (mkTransactionCount (if decide (address r = a) then n + 1 else n)))
    ∧ (∀ w', tx_addr_mapping w' ≡ₚ table →
             (get_transaction_count_for_address a w').1 = out.1).
Proof.
  intros table out. unfold out. rewrite transaction_count_run. fold table.
  cbn [fst snd]. exists (Py.len (history a table)).
  split; [done|]. split; [done|]. split; [apply new_events_logged|].
  unfold Py.len. split; [lia|]. split; [|split].
  - split.
    + intros Hz r Hr Ha.
      assert (r ∈ history a table) as Hin by by apply elem_of_history.
      destruct (history a table); [by apply not_elem_of_nil in Hin|].
      simpl in Hz. lia.
    + intros Hnone. destruct (history a table) as [|r rs] eqn:E; [done|].
      assert (r ∈ history a table) as Hin by (rewrite E; left).
      apply elem_of_history in Hin as [Hr Ha]. by destruct (Hnone r Hr).
  - intros w' r Hw'. rewrite transaction_count_run, Hw'. cbn [fst].
    do 2 f_equal. unfold history, Py.len. case_decide.
    + rewrite filter_cons_True by done. rewrite length_cons. lia.
    + by rewrite filter_cons_False.
  - intros w' Hperm. rewrite transaction_count_run. cbn [fst].
    unfold Py.len. do 3 f_equal. apply Permutation_length, history_perm, Hperm.
Qed.



(** ** The batch activity check, further *)

Lemma bind_params_dom addresses payloads : ∀ i params0,
  Forall2 (λ a p, payload a = Ok p) addresses payloads →
  ∃ params,
    bind_params i addresses params0 = Ok params
    ∧ dom params
      = dom params0 ∪ list_to_set (Py.format_a <$> seq i (length addresses)).
Proof.
  intros i params0 Hall. revert i params0.
  induction Hall as [|a p addresses payloads Hp Hall IH]; intros i params0.
  - exists params0. cbn [bind_params length seq]. split; [done|].
    by rewrite fmap_nil, list_to_set_nil, (right_id_L ∅ (∪)).
  - cbn [bind_params length seq]. rewrite Hp.
    destruct (IH (S i) (<[Py.format_a i := p]> params0)) as (params & -> & Hdom).
    exists params. split; [done|]. rewrite Hdom, dom_insert_L.
    rewrite fmap_cons, list_to_set_cons.
    rewrite (comm_L (∪) {[Py.format_a i]} (dom params0)).
    by rewrite <- (assoc_L (∪)).
Qed.

Lemma NoDup_values_binds addresses : NoDup (values_binds addresses).
Proof.
  unfold values_binds. apply NoDup_fmap_2; [|apply NoDup_seq].
  intros i j. apply format_a_inj.
Qed.

(** X8. The dictionary of bind parameters of a batch of well-formed
    addresses has exactly one key per address, [a0], [a1], ..., each bound
    to the payload of the address at that index, so that the store reads
    back the payloads in the order of the input. *)
Theorem bind_params_one_key_per_address addresses payloads :
  Forall2 (λ a p, payload a = Ok p) addresses payloads →
  ∃ params,
    bind_params 0 addresses ∅ = Ok params
    ∧ size params = length addresses
    ∧ dom params = list_to_set (values_binds addresses)
    ∧ (∀ i p, payloads !! i = Some p → params !! Py.format_a i = Some p)
    ∧ Store.bound_values (values_binds addresses) params = Some payloads.
Proof.
  intros Hall.
  destruct (bind_params_spec addresses payloads 0 ∅ Hall) as (params & Hrun & Hget & _).
  destruct (bind_params_dom addresses payloads 0 ∅ Hall) as (params' & Hrun' & Hdom).
  rewrite Hrun in Hrun'. injection Hrun' as <-.
  rewrite dom_empty_L, (left_id_L ∅ (∪)) in Hdom.
  exists params. split; [done|]. split; [|split; [done|split]].
  - rewrite <- size_dom, Hdom.
    change (Py.format_a <$> seq 0 (length addresses)) with (values_binds addresses).
    rewrite size_list_to_set by apply NoDup_values_binds.
    unfold values_binds. by rewrite length_fmap, length_seq.
  - intros i p Hi. by apply (Hget i p).
  - by apply bound_values_of_bind_params.
Qed.


(** X10. A batch with an address that has no [":"], wherever it stands
    and whatever the other entries are, raises [IndexError] before any
    statement is sent and ends with status 500. *)
Theorem addresses_active_rejects_malformed w addresses :
  Exists (λ a, Py.contains ":" a = false) addresses →
  let out := get_addresses_active addresses w in
  out = (Raise IndexError, w)
  ∧ new_events w out.2 = []
  ∧ respond out.1 = mkHttpResponse 500 (message "Internal server error").
Proof.
  intros Hex out. unfold out. rewrite addresses_active_malformed by done.
  cbn [fst snd]. by rewrite new_events_same.
Qed.

(** X11. The answer of the activity check depends on the activity table
    only through which payloads occur in it, not on the order of its rows
    or on how many rows a payload has. *)
Theorem addresses_active_ignores_table_order w w' addresses :
  (∀ p, p ∈ addresses_transactions w ↔ p ∈ addresses_transactions w') →
  (get_addresses_active addresses w).1 = (get_addresses_active addresses w').1.
Proof.
  intros Hsame.
  destruct (decide (Forall (λ a, Py.contains ":" a = true) addresses)) as [Hwf|Hbad].
  - destruct (well_formed_payloads _ Hwf) as [payloads Hall].
    destruct (decide (addresses = [])) as [->|Hne]; [done|].
    destruct (addresses_active_in_order _ _ w Hne Hall) as (? & _ & _ & -> & ->).
    destruct (addresses_active_in_order _ _ w' Hne Hall) as (? & _ & _ & -> & ->).
    cbn [fst]. f_equal. clear Hne Hwf.
    induction Hall as [|a p addresses payloads Hp Hall IH]; [done|].
    simpl. f_equal; [|apply IH]. f_equal. apply bool_decide_ext, Hsame.
  - apply not_Forall_Exists in Hbad; [|apply _].
    assert (Exists (λ a, Py.contains ":" a = false) addresses) as Hex.
    { eapply Exists_impl; [done|]. intros a Ha. by apply not_true_is_false. }
    by rewrite !addresses_active_malformed.
Qed.

(** ** The name of an address *)

(** X12. The reply to a name request carries
    [Cache-Control: public, max-age=600] on a hit and on a miss; it is a
    404 exactly when no row has the address and a 200 otherwise, and a hit
    answers with the requested address and the name of the first row for
    it. *)
Theorem name_reply_cached_on_hit_and_miss known response_headers a :
  let reply := name_reply (get_name_for_address known response_headers a) in
  reply_headers reply !! "Cache-Control" = Some "public, max-age=600"
  ∧ (reply_status reply = 404 ↔ ∀ r, r ∈ known → known_address r ≠ a)
  ∧ (reply_status reply = 200 ↔ ∃ r, r ∈ known ∧ known_address r = a)
  ∧ (∀ body, reply_body reply = inl body →
       name_address body = a
       ∧ ∃ front r back,
           known = front ++ r :: back
           ∧ known_address r = a ∧ known_name r = name body
           ∧ ∀ r', r' ∈ front → known_address r' ≠ a).
Proof.
  intros reply. unfold reply, get_name_for_address, first_known.
  induction known as [|r0 known IH].
  - simpl. rewrite lookup_singleton_eq. split; [done|]. split.
    + split; [intros _ r Hr; by apply not_elem_of_nil in Hr|done].
    + split; [split; [done|]|done].
      intros (r & Hr & _). by apply not_elem_of_nil in Hr.
  - destruct (decide (known_address r0 = a)) as [Ha|Hna].
    + rewrite filter_cons_True by done. simpl. rewrite lookup_insert_eq.
      split; [done|]. split; [|split].
      * split; [done|]. intros Hnone. destruct (Hnone r0); [left|done].
      * split; [|done]. intros _. exists r0. split; [left|done].
      * intros body Hbody. injection Hbody as <-. simpl. split; [done|].
        exists [], r0, known. repeat split; auto.
        intros r' Hr'. by apply not_elem_of_nil in Hr'.
    + rewrite filter_cons_False by done.
      destruct IH as (Hcc & H404 & H200 & Hbody). split; [done|]. split; [|split].
      * rewrite H404. split.
        -- intros Hall r Hr. apply elem_of_cons in Hr as [->|Hr]; auto.
        -- intros Hall r Hr. apply Hall. by right.
      * rewrite H200. split.
        -- intros (r & Hr & Ha). exists r. split; [by right|done].
        -- intros (r & Hr & Ha). apply elem_of_cons in Hr as [->|Hr]; [done|eauto].
      * intros body Hb. destruct (Hbody body Hb) as (Hab & front & r & back & -> & ? & ? & Hfront).
        split; [done|]. exists (r0 :: front), r, back. repeat split; auto.
        intros r' Hr'. apply elem_of_cons in Hr' as [->|Hr']; auto.
Qed.

(** ** The health check *)

Lemma ping_kaspad_healthy reply :
  (ping_kaspad reply).2 || not_synced (ping_kaspad reply).1 = false
  ↔ ∃ v u, reply = Ok (Some (mkGetInfoResponse (Some v) (Some u) (Some true))).
Proof.
  unfold ping_kaspad, not_synced.
  destruct reply as [[[[v|] [u|] [[]|]]|]|e]; simpl; split;
    try discriminate; try (intros (? & ? & [=])); eauto.
Qed.

Lemma ping_kaspad_online reply :
  kaspad_is_online (ping_kaspad reply).1 = true ↔ ∃ info, reply = Ok info.
Proof.
  unfold ping_kaspad.
  destruct reply as [[[[v|] [u|] [s|]]|]|e]; simpl; split;
    try discriminate; try (intros (? & [=])); eauto.
Qed.

Lemma ping_kaspad_synced reply :
  is_synced (ping_kaspad reply).1 = Some true →
  (ping_kaspad reply).2 || not_synced (ping_kaspad reply).1 = false.
Proof.
  unfold ping_kaspad, not_synced.
  by destruct reply as [[[[v|] [u|] [[]|]]|]|e].
Qed.

Lemma ping_database_ok env :
  (ping_database env).2 = false
  ↔ SQL_URI env = None ∨ ∃ u, select_1 env = Ok u.
Proof.
  unfold ping_database.
  destruct (SQL_URI env) as [uri|], (select_1 env) as [u|e]; simpl; split;
    try discriminate; eauto; intros [[=]|[? [=]]].
Qed.

Lemma ping_database_online env :
  database_is_online (ping_database env).1 = true
  ↔ is_Some (SQL_URI env) ∧ ∃ u, select_1 env = Ok u.
Proof.
  unfold ping_database.
  destruct (SQL_URI env) as [uri|], (select_1 env) as [u|e]; simpl; split;
    try discriminate; eauto.
  - intros [_ [? [=]]].
  - intros [[? [=]] _].
  - intros [[? [=]] _].
Qed.

Lemma ping_server_status env :
  status_code (ping_server env)
  = if (ping_kaspad (get_info env)).2 || not_synced (ping_kaspad (get_info env)).1
       || (ping_database env).2
    then 500 else 200.
Proof.
  unfold ping_server.
  destruct (ping_kaspad (get_info env)) as [k [|]],
    (ping_database env) as [d [|]]; simpl; by destruct (not_synced k).
Qed.

(** X13. [/ping] answers 200 exactly when [get_info] returned a reply
    with the three keys and [isSynced] true and, if [SQL_URI] is set, the
    [SELECT 1] succeeded; in every other case it answers 500. *)
Theorem ping_ok_iff_healthy env :
  (status_code (ping_server env) = 200
   ↔ (∃ v u, get_info env = Ok (Some (mkGetInfoResponse (Some v) (Some u) (Some true))))
     ∧ (SQL_URI env = None ∨ ∃ u, select_1 env = Ok u))
  ∧ (status_code (ping_server env) = 200 ∨ status_code (ping_server env) = 500).
Proof.
  rewrite ping_server_status.
  rewrite <- ping_kaspad_healthy, <- ping_database_ok.
  destruct (_ || not_synced _), (ping_database env).2; simpl;
    (split; [split; [try discriminate; auto|intros [? ?]; try discriminate; auto]|auto]).
Qed.

(** X14. Whatever the status, the body of [/ping] is the status record:
    [kaspad.is_online] is true exactly when [get_info] returned, also
    when the reply lacks a key; [database.is_online] is true exactly when
    [SQL_URI] is set and the [SELECT 1] succeeded, whatever happened to
    [get_info]; and with [is_synced] true in the body, a 500 means the
    database check failed. *)
Theorem ping_reports_each_backend env :
  ∃ result,
    content (ping_server env) = json result
    ∧ (kaspad_is_online (kaspad result) = true ↔ ∃ info, get_info env = Ok info)
    ∧ (database_is_online (database result) = true
       ↔ is_Some (SQL_URI env) ∧ ∃ u, select_1 env = Ok u)
    ∧ (is_synced (kaspad result) = Some true →
       status_code (ping_server env) = 500 →
       is_Some (SQL_URI env) ∧ ∃ e, select_1 env = Raise e).
Proof.
  exists (mkPingResponse (ping_kaspad (get_info env)).1 (ping_database env).1).
  split; [|split; [apply ping_kaspad_online|split; [apply ping_database_online|]]].
  - unfold ping_server.
    destruct (ping_kaspad (get_info env)) as [k e1], (ping_database env) as [d e2].
    simpl. by destruct (_ || _).
  - simpl. intros Hsynced%ping_kaspad_synced. rewrite ping_server_status, Hsynced.
    simpl. unfold ping_database.
    destruct (SQL_URI env) as [uri|], (select_1 env) as [u|e]; simpl;
      try discriminate; eauto.
Qed.

(** ** The further properties at sample stores *)











Lemma sample_payloads :
  Forall2 (λ a p, payload a = Ok p) [Sample.alice; Sample.bob; Sample.carol]
          ["qalice"; "qbob"; "qcarol"].
Proof. repeat constructor. Defined.

Lemma bind_params_one_key_per_address_witness :
  ∃ params,
    bind_params 0 [Sample.alice; Sample.bob; Sample.carol] ∅ = Ok params
    ∧ size params = 3%nat
    ∧ params !! "a1" = Some "qbob".
Proof.
  destruct (bind_params_one_key_per_address _ _ sample_payloads)
    as (params & Hrun & Hsize & _ & Hget & _).
  exists params. split; [done|]. split; [done|].
  apply (Hget 1%nat "qbob"). reflexivity.
Defined.


Lemma addresses_active_rejects_malformed_witness :
  get_addresses_active [Sample.alice; "kaspaqbob"; Sample.carol] Sample.world
  = (Raise IndexError, Sample.world).
Proof.
  refine (proj1 (addresses_active_rejects_malformed Sample.world
                   [Sample.alice; "kaspaqbob"; Sample.carol] _)).
  apply Exists_cons_tl, Exists_cons_hd. vm_compute. reflexivity.
Defined.

Lemma addresses_active_ignores_table_order_witness :
  let addresses := [Sample.alice; Sample.bob] in
  (get_addresses_active addresses (fresh [] ["qalice"; "qcarol"] 0)).1
  = (get_addresses_active addresses
       (fresh [] ["qcarol"; "qalice"; "qalice"] 0)).1.
Proof.
  apply (addresses_active_ignores_table_order
           (fresh [] ["qalice"; "qcarol"] 0)
           (fresh [] ["qcarol"; "qalice"; "qalice"] 0)).
  intros p. cbn [addresses_transactions fresh].
  rewrite !elem_of_cons. tauto.
Defined.
